(** * PhredGenotypeLikelihoods: a shallow embedding of
      [src/phredgenotypelikelihoods.cpp] and the properties of its
      constructor and of its four const member functions.

    The class wraps one [std::vector<double>].  The embedding keeps the C++
    vocabulary: a [vector] with [size] and the unchecked [operator[]], an
    [ostringstream] with [operator<<], [assert] from <cassert>, and call
    results that either return, abort on a failed assertion, or are
    undefined. *)

From Stdlib Require Import NArith ZArith String Ascii.
From Stdlib Require Import Floats.PrimFloat Floats.FloatOps Floats.SpecFloat.
From stdpp Require Import base numbers option list gmap strings pretty.
From Equations Require Import Equations.

(** A decimal literal such as [0.1] stands for the nearest binary64 value,
    in Rocq as in C++. *)
Set Warnings "-inexact-float".

Local Open Scope N_scope.

(** ** Results of a C++ call *)

(** A call returns a value, stops the program through a failed [assert]
    (<cassert> prints the diagnostic and calls [abort]), or has no defined
    behaviour at all. *)
Inductive outcome (A : Type) : Type :=
| Returns (a : A)
| AssertionFailed
| Undefined.
Arguments Returns {A} a.
Arguments AssertionFailed {A}.
Arguments Undefined {A}.

#[global] Instance outcome_ret : MRet outcome := @Returns.
#[global] Instance outcome_bind : MBind outcome := fun A B f c =>
  match c with
  | Returns a => f a
  | AssertionFailed => AssertionFailed
  | Undefined => Undefined
  end.

#[global] Instance outcome_fmap : FMap outcome := fun A B f c =>
  c ≫= fun a => Returns (f a).

(** [returns c] holds when the call [c] comes back with a value. *)
Definition returns {A} (c : outcome A) : Prop := exists a, c = Returns a.

(** [assert(e)] with assertions compiled in (no [NDEBUG]). *)
Definition assert (e : bool) : outcome unit :=
  if e then Returns tt else AssertionFailed.

(** ** The standard-library types the class is built from *)

(** [size_t] is unsigned; no operation of the class can wrap it, since the
    only arithmetic is the loop counter of [toString], which stays at or
    below [gl.size()]. *)
Definition size_t : Set := N.

(** [double] is IEEE 754 binary64. *)
Definition double : Set := float.

(** [std::vector<T>]: its elements in index order. *)
Definition vector (T : Type) : Type := list T.

(** [v.size()] *)
Definition size {T} (v : vector T) : size_t := N.of_nat (length v).

(** [v[n]]: [operator[]] does no bounds check, reading past the end is
    undefined behaviour. *)
Definition subscript {T} (v : vector T) (n : size_t) : outcome T :=
  match v !! N.to_nat n with
  | Some x => Returns x
  | None => Undefined
  end.

(** [std::ostringstream]: the characters written so far. *)
Definition ostringstream : Set := string.

(** [oss << s] for a string literal [s]. *)
Definition put (oss : ostringstream) (s : string) : ostringstream := oss +:+ s.
Infix "<<" := put (at level 50, left associativity).

(** [std::endl] writes a newline (and flushes, which a string stream does
    not observe). *)
Definition endl : string := String (ascii_of_nat 10) EmptyString.

(** [oss.str()] *)
Definition str (oss : ostringstream) : string := oss.

(** [inspect b] keeps the equation [b = true] or [b = false] of a test that
    a loop condition branches on. *)
Definition inspect {A} (a : A) : {b : A | a = b} := exist _ a eq_refl.

Module PhredGenotypeLikelihoods.

(** Modelled from the spec: the class declaration of
    [phredgenotypelikelihoods.h], which is not among the sources.  Its one
    data member [gl] is a [std::vector<double>] held by value ("the
    container owns its own copy of the score sequence"). *)
Record t : Type := { gl : vector double }.

(** [PhredGenotypeLikelihoods(const vector<double>& gl) : gl(gl) {}]:
    the member is copy-constructed from the argument, the body is empty. *)
Definition construct (gl : vector double) : t := {| gl := gl |}.

(** [double get(size_t genotype) const] *)
Definition get (this : t) (genotype : size_t) : outcome double :=
  assert (genotype <? size this.(gl)) ≫= fun _ =>
  subscript this.(gl) genotype.

(** [const vector<double>& as_vector() const] *)
Definition as_vector (this : t) : vector double := this.(gl).

(** [size_t genotype_count() const] *)
Definition genotype_count (this : t) : size_t := size this.(gl).

Section toString.

(** [oss << x] for a [double x] is [std::ostream::operator<<(double)] of the
    C++ standard library, on a fresh stream (default flags and precision).
    It is not code of this class, which is verified for every such
    conversion. *)
Variable put_double : double -> string.

(** The [for] loop of [toString], entered with counter [i] and stream [oss]:
    [for (; i < gl.size(); i++) { if (i > 0) oss << ","; oss << gl[i]; }] *)
Equations? toString_loop (this : t) (i : size_t) (oss : ostringstream)
  : outcome ostringstream by wf (N.to_nat (size this.(gl) - i)) lt :=
toString_loop this i oss with inspect (i <? size this.(gl)) := {
  | exist _ true Hlt =>
      let oss := if 0 <? i then oss << "," else oss in
      subscript this.(gl) i ≫= fun x =>
      toString_loop this (i + 1) (oss << put_double x)
  | exist _ false _ => Returns oss }.
Proof. apply N.ltb_lt in Hlt. lia. Qed.

(** [std::string toString() const] *)
Definition toString (this : t) : outcome string :=
  let oss : ostringstream := EmptyString in
  let oss := oss << "PhredGenotypeLikelihoods( " in
  toString_loop this 0 oss ≫= fun oss =>
  let oss := oss << ")" << endl in
  Returns (str oss).

(** What the loop writes for the elements [rest] when it reaches them with
    counter [i]: a comma before every element but the one at index 0. *)
Fixpoint items (i : size_t) (rest : list double) : string :=
  match rest with
  | [] => ""
  | x :: rest => (if 0 <? i then "," else "") +:+ put_double x +:+ items (i + 1) rest
  end.

(** The elements joined the way the specification words it: the
    representations in index order with a comma between neighbours. *)
Definition comma_separated (S : vector double) : string :=
  String.concat "," (map put_double S).

(** *** Calls on an instance *)

(** The member functions that the source file defines, with their
    arguments.  The class declaration is not among the sources; the
    specification gives the class these four operations and none that
    updates an instance. *)
Inductive method : Type :=
| call_get (genotype : size_t)
| call_as_vector
| call_genotype_count
| call_toString.

Inductive value : Type :=
| double_value (x : double)
| vector_value (v : vector double)
| size_value (n : size_t)
| string_value (s : string).

Definition dispatch (c : method) (this : t) : outcome value :=
  match c with
  | call_get genotype => double_value <$> get this genotype
  | call_as_vector => Returns (vector_value (as_vector this))
  | call_genotype_count => Returns (size_value (genotype_count this))
  | call_toString => string_value <$> toString this
  end.

(** *** The member functions as computations on the object

    A member function runs on the object [*this].  As a computation it takes
    the object as the call finds it and, when it returns, gives its result
    together with the object as the call leaves it; the object is handed from
    one step of a body to the next. *)
Definition method_body (A : Type) : Type := t -> outcome (A * t).

#[global] Instance method_body_ret : MRet method_body :=
  fun A a this => Returns (a, this).
#[global] Instance method_body_bind : MBind method_body :=
  fun A B k c this => c this ≫= fun r => k (fst r) (snd r).

(** The member [gl] (that is, [this->gl]) where a body names it. *)
Definition this_gl : method_body (vector double) :=
  fun this => Returns (gl this, this).

(** A step on values already read, which does not involve the object:
    [assert], or [operator[]] on the vector read. *)
Definition eval {A} (c : outcome A) : method_body A :=
  fun this => c ≫= fun a => Returns (a, this).

(** [assert(genotype < gl.size()); return this->gl[genotype];] *)
Definition get_body (genotype : size_t) : method_body double :=
  v ← this_gl;
  _ ← eval (assert (genotype <? size v));
  v ← this_gl;
  eval (subscript v genotype).

(** [return gl;] *)
Definition as_vector_body : method_body (vector double) := this_gl.

(** [return gl.size();] *)
Definition genotype_count_body : method_body size_t :=
  v ← this_gl; mret (size v).

(** The loop condition [i < gl.size()]. *)
Definition loop_cond (i : size_t) : method_body bool :=
  v ← this_gl; mret (i <? size v).

(** The loop body [if (i > 0) oss << ","; oss << gl[i];]. *)
Definition loop_step (i : size_t) (oss : ostringstream) : method_body ostringstream :=
  let oss := if 0 <? i then oss << "," else oss in
  v ← this_gl;
  x ← eval (subscript v i);
  mret (oss << put_double x).

(** [for (; i < gl.size(); i++) { ... }] on the object: the condition and the
    body are run on the object that the previous step left. *)
Equations? toString_loop_body (i : size_t) (oss : ostringstream) (this : t)
  : outcome (ostringstream * t) by wf (N.to_nat (size this.(gl) - i)) lt :=
toString_loop_body i oss this with inspect (loop_cond i this) := {
  | exist _ (Returns (true, this1)) Hcond with inspect (loop_step i oss this1) := {
      | exist _ (Returns (oss1, this2)) Hstep => toString_loop_body (i + 1) oss1 this2
      | exist _ AssertionFailed _ => AssertionFailed
      | exist _ Undefined _ => Undefined }
  | exist _ (Returns (false, this1)) _ => Returns (oss, this1)
  | exist _ AssertionFailed _ => AssertionFailed
  | exist _ Undefined _ => Undefined }.
Proof.
  match goal with Hlt : (_ <? _) = true |- _ => apply N.ltb_lt in Hlt end.
  unfold loop_step, this_gl, eval, mbind, method_body_bind, mret, method_body_ret in Hstep.
  cbn in Hstep. destruct (subscript (gl this1) i); try discriminate Hstep.
  cbn in Hstep. injection Hstep as _ <-. lia.
Qed.

(** The body of [toString]. *)
Definition toString_body : method_body string :=
  let oss : ostringstream := EmptyString in
  let oss := oss << "PhredGenotypeLikelihoods( " in
  oss ← toString_loop_body 0 oss;
  let oss := oss << ")" << endl in
  mret (str oss).

(** A call of a member function on the object. *)
Definition invoke (c : method) : method_body value :=
  match c with
  | call_get genotype => x ← get_body genotype; mret (double_value x)
  | call_as_vector => v ← as_vector_body; mret (vector_value v)
  | call_genotype_count => n ← genotype_count_body; mret (size_value n)
  | call_toString => s ← toString_body; mret (string_value s)
  end.

(** Calls one after the other, each on the object that the call before it
    left; a call that does not return ends the program. *)
Fixpoint run (cs : list method) : method_body (list value) :=
  match cs with
  | [] => mret []
  | c :: cs => r ← invoke c; rs ← run cs; mret (r :: rs)
  end.

End toString.

End PhredGenotypeLikelihoods.

Import PhredGenotypeLikelihoods.

(** ** The instance next to its caller's vector

    The constructor takes its argument by reference.  To tell a copy from an
    alias, the caller's vectors and the instances live in one memory, at
    addresses. *)
Module Caller.

Inductive object : Type :=
| a_vector (v : vector double)
| an_instance (p : PhredGenotypeLikelihoods.t).

Abbreviation memory := (gmap positive object).

(** [PhredGenotypeLikelihoods p(S);] for the caller's vector [S] at address
    [src]: the vector behind the reference is read, and the new instance,
    which holds its member by value, takes storage of its own. *)
Definition new_instance (m : memory) (src : positive) : outcome (positive * memory) :=
  match m !! src with
  | Some (a_vector v) =>
      let this := fresh (dom m) in
      Returns (this, <[this := an_instance (construct v)]> m)
  | _ => Undefined
  end.

(** Any later change of the caller to its vector at [src] (an element
    assignment, [push_back], [clear], ...) leaves it with some contents
    [S']. *)
Definition overwrite (m : memory) (src : positive) (S' : vector double) : memory :=
  <[src := a_vector S']> m.

(** A member function called on the instance at address [this]. *)
Definition call {A} (f : PhredGenotypeLikelihoods.t -> outcome A)
    (m : memory) (this : positive) : outcome A :=
  match m !! this with
  | Some (an_instance p) => f p
  | _ => Undefined
  end.

End Caller.

(** ** The conversion that a fresh stream applies to a [double]

    [operator<<(double)] of a stream with default flags converts as
    [printf("%.6g")] does (C11 7.21.6.1, conversion [g] with precision
    [P = 6]): the value is rounded to [P] significant decimal digits; with
    [X] the decimal exponent of the rounded value, the fixed style is used
    when [-4 <= X < P] and the scientific style otherwise; trailing zeros of
    the fraction go, and the point with them when no fraction is left.  The
    rounding is exact and to nearest, ties to even.  It is an instance for
    [put_double], used to evaluate [toString] on concrete vectors; a NaN has
    no sign in [float], it prints as [nan]. *)
Module StreamDouble.

Local Open Scope Z_scope.

(** [ge_pow10 num den X]: the positive rational [num / den] is at least
    [10 ^ X]. *)
Definition ge_pow10 (num den X : Z) : bool :=
  if 0 <=? X then den * 10 ^ X <=? num else den <=? num * 10 ^ (- X).

(** The largest [X] at or below the start with [10 ^ X <= num / den]. *)
Fixpoint decimal_exponent_from (fuel : nat) (num den X : Z) : Z :=
  match fuel with
  | O => X
  | S fuel =>
      if ge_pow10 num den X then X
      else decimal_exponent_from fuel num den (X - 1)
  end.

(** Every positive binary64 value lies in [[10 ^ -324, 10 ^ 309)]. *)
Definition decimal_exponent (num den : Z) : Z :=
  decimal_exponent_from 640 num den 309.

Definition round_half_even (num den : Z) : Z :=
  let q := num / den in
  match 2 * (num mod den) ?= den with
  | Lt => q
  | Gt => q + 1
  | Eq => if Z.even q then q else q + 1
  end.

(** [num / den] in units of [10 ^ (X - (P - 1))], rounded. *)
Definition scaled (P num den X : Z) : Z :=
  let s := X - (P - 1) in
  if 0 <=? s then round_half_even num (den * 10 ^ s)
  else round_half_even (num * 10 ^ (- s)) den.

(** The [P] significant digits and the decimal exponent of [num / den]. *)
Definition to_decimal (P num den : Z) : Z * Z :=
  let X := decimal_exponent num den in
  let q := scaled P num den X in
  if q =? 10 ^ P then (10 ^ (P - 1), X + 1) else (q, X).

Fixpoint strip_zeros (s : string) : string :=
  match s with
  | EmptyString => EmptyString
  | String c s' =>
      match strip_zeros s' with
      | EmptyString => if Ascii.eqb c "0" then EmptyString else String c EmptyString
      | rest => String c rest
      end
  end.

Definition with_fraction (int frac : string) : string :=
  match strip_zeros frac with
  | EmptyString => int
  | f => int +:+ "." +:+ f
  end.

Fixpoint zeros (n : nat) : string :=
  match n with
  | O => EmptyString
  | S n => String "0" (zeros n)
  end.

Definition digits (q : Z) : string := pretty (Z.to_N q).

Definition fixed_style (ds : string) (X : Z) : string :=
  if 0 <=? X then
    let k := S (Z.to_nat X) in
    with_fraction (substring 0 k ds) (substring k (String.length ds - k) ds)
  else
    with_fraction "0" (zeros (Z.to_nat (- X - 1)) +:+ ds).

Definition exponent_part (X : Z) : string :=
  let a := digits (Z.abs X) in
  "e" +:+ (if X <? 0 then "-" else "+") +:+
  (if (String.length a <? 2)%nat then "0" +:+ a else a).

Definition scientific_style (ds : string) (X : Z) : string :=
  with_fraction (substring 0 1 ds) (substring 1 (String.length ds - 1) ds)
  +:+ exponent_part X.

Definition format_g (P : Z) (x : double) : string :=
  let sign (s : bool) : string := if s then "-" else "" in
  match Prim2SF x with
  | S754_zero s => sign s +:+ "0"
  | S754_infinity s => sign s +:+ "inf"
  | S754_nan => "nan"
  | S754_finite s m e =>
      let num := if 0 <=? e then Zpos m * 2 ^ e else Zpos m in
      let den := if 0 <=? e then 1 else 2 ^ (- e) in
      let '(q, X) := to_decimal P num den in
      sign s +:+
      (if (-4 <=? X) && (X <? P) then fixed_style (digits q) X
       else scientific_style (digits q) X)
  end.

(** The precision of a fresh stream is 6. *)
Definition put_double (x : double) : string := format_g 6 x.

End StreamDouble.

(** ** Vocabulary for statements about renderings *)

(** How often the character [c] occurs in [s]. *)
Fixpoint count_char (c : ascii) (s : string) : nat :=
  match s with
  | EmptyString => 0
  | String a s' => (if Ascii.eqb a c then 1 else 0) + count_char c s'
  end.

(** A representation that cannot be confused with a separator or with a
    missing element: not empty, and without a comma. *)
Definition plain (s : string) : bool :=
  negb (String.eqb s "") && Nat.eqb (count_char "," s) 0.

(** * Properties *)

Section subscript.
Context {T : Type}.
Implicit Types (v : vector T) (n : size_t).

Lemma size_lookup v n : n < size v -> is_Some (v !! N.to_nat n).
Proof. unfold size. intros H. apply lookup_lt_is_Some. lia. Qed.

Lemma subscript_Some v n x : v !! N.to_nat n = Some x -> subscript v n = Returns x.
Proof. unfold subscript. intros ->. reflexivity. Qed.

End subscript.

Lemma get_in_range this genotype :
  genotype < genotype_count this -> get this genotype = subscript (gl this) genotype.
Proof.
  unfold get, genotype_count. intros H%N.ltb_lt. rewrite H. reflexivity.
Qed.

Lemma get_past_end this genotype :
  genotype_count this <= genotype -> get this genotype = AssertionFailed.
Proof.
  unfold get, genotype_count. intros H%N.ltb_ge. rewrite H. reflexivity.
Qed.

(** C1: for every sequence [S] and every index [i < len(S)], [get(i)] on the
    instance constructed from [S] returns the element [S[i]] itself. *)
Theorem get_construct (S : vector double) (i : size_t) :
  i < size S ->
  exists x, S !! N.to_nat i = Some x /\ get (construct S) i = Returns x.
Proof.
  intros Hi. destruct (size_lookup S i Hi) as [x Hx]. exists x. split; [exact Hx|].
  rewrite get_in_range by exact Hi. apply subscript_Some, Hx.
Qed.

Lemma get_construct_witness :
  1 < size [0.1; 0.2; 0.3]%float /\
  exists x, [0.1; 0.2; 0.3]%float !! N.to_nat 1 = Some x /\
            get (construct [0.1; 0.2; 0.3]%float) 1 = Returns x.
Proof. split; [reflexivity | apply get_construct; reflexivity]. Defined.

(** C2: for every sequence [S], the empty one included, [genotype_count()]
    on the instance constructed from [S] returns [len(S)]. *)
Theorem genotype_count_construct (S : vector double) :
  genotype_count (construct S) = N.of_nat (length S).
Proof. reflexivity. Qed.

(** C4: for every index [i >= len(S)], [get(i)] fails the assertion and does
    not return a value. *)
Theorem get_out_of_range (S : vector double) (i : size_t) :
  size S <= i ->
  get (construct S) i = AssertionFailed /\ ~ returns (get (construct S) i).
Proof.
  intros Hi. rewrite get_past_end by exact Hi. split; [reflexivity|].
  intros [x Hx]. discriminate Hx.
Qed.

Lemma get_out_of_range_witness :
  size [5.5]%float <= 1 /\
  get (construct [5.5]%float) 1 = AssertionFailed /\
  ~ returns (get (construct [5.5]%float) 1).
Proof.
  split; [unfold size; simpl; lia | apply get_out_of_range; unfold size; simpl; lia].
Defined.

(** C5: [as_vector()] on the instance constructed from [S] gives the elements
    of [S] in order; for [S = [1.0, 2.0, 3.0]] it gives [[1.0, 2.0, 3.0]]. *)
Theorem as_vector_construct :
  (forall S : vector double, as_vector (construct S) = S) /\
  as_vector (construct [1.0; 2.0; 3.0]%float) = [1.0; 2.0; 3.0]%float.
Proof. split; reflexivity. Qed.

(** C10: on every instance, [genotype_count()] is the length of
    [as_vector()], and [get(i)] is the [i]-th element of [as_vector()] for
    every [i < genotype_count()]. *)
Theorem accessors_consistent (this : t) :
  genotype_count this = N.of_nat (length (as_vector this)) /\
  forall i : size_t, i < genotype_count this ->
    exists x, as_vector this !! N.to_nat i = Some x /\ get this i = Returns x.
Proof.
  split; [reflexivity|]. intros i Hi.
  destruct (size_lookup (gl this) i Hi) as [x Hx]. exists x. split; [exact Hx|].
  rewrite get_in_range by exact Hi. apply subscript_Some, Hx.
Qed.

Lemma accessors_consistent_witness :
  genotype_count (construct [0.5; 1.5]%float) = N.of_nat (length (as_vector (construct [0.5; 1.5]%float))) /\
  (1 < genotype_count (construct [0.5; 1.5]%float) /\
   exists x, as_vector (construct [0.5; 1.5]%float) !! N.to_nat 1 = Some x /\
             get (construct [0.5; 1.5]%float) 1 = Returns x).
Proof.
  destruct (accessors_consistent (construct [0.5; 1.5]%float)) as [Hc Hg].
  split; [exact Hc|]. split; [reflexivity | apply Hg; reflexivity].
Defined.

(** ** The rendering *)

Lemma append_String (ch : ascii) (a b : string) :
  String ch a +:+ b = String ch (a +:+ b).
Proof. reflexivity. Qed.

Lemma append_assoc (a b c : string) : (a +:+ b) +:+ c = a +:+ b +:+ c.
Proof.
  induction a as [|ch a IH]; [reflexivity|].
  rewrite !append_String, IH. reflexivity.
Qed.

Lemma append_empty_r (a : string) : a +:+ "" = a.
Proof.
  induction a as [|ch a IH]; [reflexivity|].
  rewrite append_String, IH. reflexivity.
Qed.

Section toString_facts.
Variable put_double : double -> string.

Lemma toString_loop_unfold this i oss :
  toString_loop put_double this i oss =
  if i <? size (gl this) then
    let oss := if 0 <? i then oss << "," else oss in
    subscript (gl this) i ≫= fun x =>
    toString_loop put_double this (i + 1) (oss << put_double x)
  else Returns oss.
Proof.
  funelim (toString_loop put_double this i oss);
    match goal with E : (_ <? _) = _ |- _ => rewrite E end; reflexivity.
Qed.

(** The loop, entered at the boundary between the elements already written
    and those still to write, returns and has appended [items]. *)
Lemma toString_loop_items this rest : forall written oss,
  gl this = written ++ rest ->
  toString_loop put_double this (size written) oss =
  Returns (oss +:+ items put_double (size written) rest).
Proof.
  induction rest as [|x rest IH]; intros written oss Hgl;
    rewrite toString_loop_unfold.
  - rewrite app_nil_r in Hgl. rewrite Hgl, N.ltb_irrefl. simpl.
    rewrite (append_empty_r oss). reflexivity.
  - assert (size written < size (gl this)) as Hlt%N.ltb_lt.
    { rewrite Hgl. unfold size. rewrite length_app. simpl. lia. }
    rewrite Hlt.
    rewrite (subscript_Some _ _ x).
    2:{ unfold size. rewrite Nat2N.id, Hgl. apply list_lookup_middle. reflexivity. }
    simpl.
    replace (size written + 1) with (size (written ++ [x]))
      by (unfold size; rewrite length_app; simpl; lia).
    rewrite IH by (rewrite <- app_assoc; exact Hgl).
    f_equal. unfold put. destruct (0 <? size written);
      rewrite ?append_assoc; reflexivity.
Qed.

Lemma items_positive i rest : 0 < i ->
  items put_double i rest = String.concat "" (map (fun x => "," +:+ put_double x) rest).
Proof.
  revert i. induction rest as [|x rest IH]; intros i Hi; [reflexivity|].
  cbn [items map]. apply N.ltb_lt in Hi as Hb. rewrite Hb.
  rewrite IH by lia. destruct rest; simpl; rewrite ?append_empty_r; reflexivity.
Qed.

Lemma concat_cons x rest :
  String.concat "," (put_double x :: map put_double rest) =
  put_double x +:+ String.concat "" (map (fun y => "," +:+ put_double y) rest).
Proof.
  revert x. induction rest as [|y rest IH]; intros x.
  - simpl. rewrite append_empty_r. reflexivity.
  - change (put_double x +:+ "," +:+ String.concat "," (put_double y :: map put_double rest) =
            put_double x +:+ String.concat "" (map (fun y => "," +:+ put_double y) (y :: rest))).
    rewrite IH. f_equal. destruct rest; simpl; rewrite ?append_empty_r, ?append_assoc; reflexivity.
Qed.

Lemma items_comma_separated S : items put_double 0 S = comma_separated put_double S.
Proof.
  destruct S as [|x rest]; [reflexivity|].
  unfold comma_separated. cbn [items map]. rewrite concat_cons.
  rewrite (items_positive (0 + 1)) by lia. reflexivity.
Qed.

Lemma toString_rendering this :
  toString put_double this =
  Returns ("PhredGenotypeLikelihoods( " +:+ comma_separated put_double (gl this) +:+ ")" +:+ endl).
Proof.
  unfold toString.
  rewrite (toString_loop_items this (gl this) [] _ eq_refl).
  change (size []) with 0. rewrite items_comma_separated.
  simpl. unfold str, put. rewrite ?append_assoc. reflexivity.
Qed.

End toString_facts.

(** ** The scenarios of the specification, evaluated *)

Example put_double_examples :
  map StreamDouble.put_double
    [1.0; 5.5; 0.1; 100000; 1000000; 0.0001; 0.00001; 123456.7; -2.5; 0; infinity]%float =
  ["1"; "5.5"; "0.1"; "100000"; "1e+06"; "0.0001"; "1e-05"; "123457"; "-2.5"; "0"; "inf"]%string.
Proof. vm_compute. reflexivity. Qed.

Example scenario_one_value :
  genotype_count (construct [0.1]%float) = 1 /\
  get (construct [0.1]%float) 0 = Returns 0.1%float /\
  toString StreamDouble.put_double (construct [0.1]%float) =
    Returns ("PhredGenotypeLikelihoods( 0.1)" +:+ endl).
Proof. repeat split; vm_compute; reflexivity. Qed.

Example scenario_three_values :
  get (construct [0.1; 0.2; 0.3]%float) 1 = Returns 0.2%float /\
  toString StreamDouble.put_double (construct [0.1; 0.2; 0.3]%float) =
    Returns ("PhredGenotypeLikelihoods( 0.1,0.2,0.3)" +:+ endl).
Proof. repeat split; vm_compute; reflexivity. Qed.

Example comma_separated_three :
  comma_separated StreamDouble.put_double [0.1; 0.2; 0.3]%float = "0.1,0.2,0.3"%string.
Proof. vm_compute. reflexivity. Qed.

(** C3 (as amended): for every sequence [S], [toString()] on the instance
    constructed from [S] returns "PhredGenotypeLikelihoods( ", then the
    default representations of the elements in index order with a comma and
    no space between neighbours, then ")" and a newline. *)
Theorem toString_construct (put_double : double -> string) (S : vector double) :
  toString put_double (construct S) =
  Returns ("PhredGenotypeLikelihoods( " +:+ comma_separated put_double S +:+ ")" +:+ endl).
Proof. apply toString_rendering. Qed.

(** C3 as stated fails: on [S = [0.1, 0.2, 0.3]] the code does not return
    the string that starts with "GenotypeLikelihoods( ". *)
Lemma toString_prefix_counterexample :
  toString StreamDouble.put_double (construct [0.1; 0.2; 0.3]%float) <>
  Returns ("GenotypeLikelihoods( " +:+
           comma_separated StreamDouble.put_double [0.1; 0.2; 0.3]%float +:+
           ")" +:+ endl).
Proof. vm_compute. discriminate. Qed.

(** C7 (as amended): for the empty sequence, [genotype_count()] is 0 and
    [toString()] returns "PhredGenotypeLikelihoods( )" and a newline. *)
Theorem empty_instance (put_double : double -> string) :
  genotype_count (construct []) = 0 /\
  toString put_double (construct []) = Returns ("PhredGenotypeLikelihoods( )" +:+ endl).
Proof. split; [reflexivity|]. rewrite toString_rendering. reflexivity. Qed.

(** C7 as stated fails: for the empty sequence [toString()] does not return
    "GenotypeLikelihoods( )" and a newline. *)
Lemma empty_toString_counterexample :
  ~ (genotype_count (construct []) = 0 /\
     toString StreamDouble.put_double (construct []) =
       Returns ("GenotypeLikelihoods( )" +:+ endl)).
Proof. intros [_ H]. vm_compute in H. discriminate H. Qed.

(** ** Calls, and sequences of calls *)

Section calls.
Variable put_double : double -> string.

Lemma toString_returns this : returns (toString put_double this).
Proof. rewrite toString_rendering. eexists. reflexivity. Qed.

(** Each body, run on an object, gives what the function of the same name
    gives for that object, and leaves the object it was run on: the call as
    a whole is a step that does not involve the object. *)
Ltac step_bodies :=
  cbv [mbind method_body_bind mret method_body_ret this_gl eval
       outcome_bind outcome_ret fst snd].

Lemma get_body_object genotype this :
  get_body genotype this = eval (get this genotype) this.
Proof.
  unfold get_body, get, eval, assert. step_bodies.
  destruct (genotype <? size (gl this)); cbn; [|reflexivity].
  destruct (subscript (gl this) genotype); reflexivity.
Qed.

Lemma loop_cond_object i this :
  loop_cond i this = Returns (i <? size (gl this), this).
Proof. reflexivity. Qed.

Lemma loop_step_object i oss this :
  loop_step put_double i oss this =
  eval (subscript (gl this) i ≫= fun x =>
        Returns ((if 0 <? i then oss << "," else oss) << put_double x)) this.
Proof.
  unfold loop_step, eval. step_bodies.
  destruct (subscript (gl this) i); reflexivity.
Qed.

Lemma toString_loop_body_object i oss this :
  toString_loop_body put_double i oss this =
  eval (toString_loop put_double this i oss) this.
Proof.
  funelim (toString_loop_body put_double i oss this);
    rewrite toString_loop_unfold;
    match goal with
    | E : loop_cond _ _ = _ |- _ =>
        let C := fresh "C" in
        pose proof E as C; rewrite loop_cond_object in C;
        try discriminate C; injection C as C <-; rewrite C
    end;
    try reflexivity;
    match goal with
    | E : loop_step _ _ _ _ = _ |- _ =>
        let C := fresh "C" in
        pose proof E as C; rewrite loop_step_object in C;
        unfold eval in C; cbv zeta;
        destruct (subscript (gl _) _); try discriminate C;
        cbn in C; try injection C as <- <-
    end;
    try reflexivity.
  match goal with IH : toString_loop_body _ _ _ _ = _ |- _ => exact IH end.
Qed.

Lemma toString_body_object this :
  toString_body put_double this = eval (toString put_double this) this.
Proof.
  unfold toString_body, toString, eval.
  cbv [mbind method_body_bind mret method_body_ret].
  rewrite toString_loop_body_object. unfold eval.
  destruct (toString_loop put_double this 0 _); reflexivity.
Qed.

Lemma invoke_object c this :
  invoke put_double c this = eval (dispatch put_double c this) this.
Proof.
  destruct c as [genotype | | |]; unfold invoke, dispatch, eval;
    cbv [mbind method_body_bind mret method_body_ret fmap outcome_fmap].
  - rewrite get_body_object. unfold eval.
    destruct (get this genotype); reflexivity.
  - reflexivity.
  - reflexivity.
  - rewrite toString_body_object. unfold eval.
    destruct (toString put_double this); reflexivity.
Qed.

Lemma run_object cs this :
  run put_double cs this =
  eval (mapM (fun c => dispatch put_double c this) cs) this.
Proof.
  induction cs as [|c cs IH]; [reflexivity|].
  cbn [run mapM]. cbv [mbind method_body_bind mret method_body_ret].
  rewrite invoke_object. unfold eval at 1.
  destruct (dispatch put_double c this) as [v| |]; [|reflexivity..].
  cbn. rewrite IH. unfold eval.
  destruct (mapM _ cs); reflexivity.
Qed.

End calls.

(** C8: construction takes every sequence, empty or not, as it is, and
    [as_vector()], [genotype_count()] and [toString()] return on every
    constructed instance; [get] is the one call that can fail. *)
Theorem construction_and_readers_total (put_double : double -> string) (S : vector double) :
  (forall (m : Caller.memory) (src : positive),
     returns (Caller.new_instance (<[src := Caller.a_vector S]> m) src)) /\
  gl (construct S) = S /\
  returns (dispatch put_double call_as_vector (construct S)) /\
  returns (dispatch put_double call_genotype_count (construct S)) /\
  returns (dispatch put_double call_toString (construct S)) /\
  exists i, ~ returns (dispatch put_double (call_get i) (construct S)).
Proof.
  split.
  { intros m src. unfold Caller.new_instance. rewrite lookup_insert_eq.
    eexists. reflexivity. }
  split; [reflexivity|]. split; [eexists; reflexivity|]. split; [eexists; reflexivity|].
  split.
  - destruct (toString_returns put_double (construct S)) as [s Hs].
    exists (string_value s). cbn [dispatch]. rewrite Hs. reflexivity.
  - exists (size S). cbn [dispatch]. rewrite get_past_end by exact (N.le_refl (size S)).
    intros [v Hv]. discriminate Hv.
Qed.

(** C9: every call (get, as_vector, genotype_count, toString) leaves the
    instance as it was: run on the instance constructed from [S], each member
    function's body gives its result and leaves that same instance, so in
    any sequence of calls every call answers as on the fresh instance and the
    stored sequence keeps its length and its contents; no member function
    changes it. *)
Theorem instance_immutable (put_double : double -> string) (S : vector double) :
  (forall c : method,
     invoke put_double c (construct S) =
     dispatch put_double c (construct S) ≫= fun v => Returns (v, construct S)) /\
  (forall cs : list method,
     run put_double cs (construct S) =
     mapM (fun c => dispatch put_double c (construct S)) cs ≫= fun vs =>
     Returns (vs, construct S)) /\
  (forall (cs : list method) (vs : list value) (this' : t),
     run put_double cs (construct S) = Returns (vs, this') ->
     as_vector this' = S /\ genotype_count this' = N.of_nat (length S)).
Proof.
  split; [intros c; apply invoke_object|].
  split; [intros cs; apply run_object|].
  intros cs vs this' Hrun. rewrite run_object in Hrun. unfold eval in Hrun.
  destruct (mapM _ cs) as [vs0| |]; try discriminate Hrun.
  injection Hrun as _ <-. split; reflexivity.
Qed.

Lemma instance_immutable_witness :
  run StreamDouble.put_double [call_get 1; call_toString; call_genotype_count]
      (construct [0.5; 1.5]%float) =
    Returns ([double_value 1.5%float;
              string_value ("PhredGenotypeLikelihoods( 0.5,1.5)" +:+ endl);
              size_value 2],
             construct [0.5; 1.5]%float) /\
  as_vector (construct [0.5; 1.5]%float) = [0.5; 1.5]%float /\
  genotype_count (construct [0.5; 1.5]%float) = N.of_nat (length [0.5; 1.5]%float).
Proof.
  split; [vm_compute; reflexivity|].
  destruct (instance_immutable StreamDouble.put_double [0.5; 1.5]%float) as (_ & _ & Hleft).
  apply (Hleft [call_get 1; call_toString; call_genotype_count]
           [double_value 1.5%float;
            string_value ("PhredGenotypeLikelihoods( 0.5,1.5)" +:+ endl);
            size_value 2]).
  vm_compute. reflexivity.
Defined.

(** ** Copy-in isolation *)

Lemma new_instance_fresh (m : Caller.memory) (src : positive) (v : vector double) :
  m !! src = Some (Caller.a_vector v) -> fresh (dom m) <> src.
Proof.
  intros Hsrc Heq. apply (is_fresh (dom m)). rewrite Heq.
  apply elem_of_dom. eexists. exact Hsrc.
Qed.

Lemma call_overwrite {A} (f : t -> outcome A) (m : Caller.memory)
    (this src : positive) (p : t) (S' : vector double) :
  this <> src -> m !! this = Some (Caller.an_instance p) ->
  Caller.call f (Caller.overwrite m src S') this = f p.
Proof.
  intros Hne Hthis. unfold Caller.call, Caller.overwrite.
  rewrite lookup_insert_ne by congruence. rewrite Hthis. reflexivity.
Qed.

(** C6: once an instance is constructed from the caller's sequence [S], a
    later change of the caller to its own sequence, to any [S'], does not
    reach the instance: as_vector still gives [S], genotype_count the length
    of [S], get the elements of [S] (and the assertion failure past the end
    of [S]), and toString the rendering of [S]. *)
Theorem copy_in_isolation (put_double : double -> string) (m : Caller.memory)
    (src : positive) (S S' : vector double) :
  m !! src = Some (Caller.a_vector S) ->
  exists this m',
    Caller.new_instance m src = Returns (this, m') /\
    Caller.overwrite m' src S' !! src = Some (Caller.a_vector S') /\
    Caller.call (fun p => Returns (as_vector p)) (Caller.overwrite m' src S') this =
      Returns S /\
    Caller.call (fun p => Returns (genotype_count p)) (Caller.overwrite m' src S') this =
      Returns (N.of_nat (length S)) /\
    (forall (i : size_t) (x : double), S !! N.to_nat i = Some x ->
       Caller.call (fun p => get p i) (Caller.overwrite m' src S') this = Returns x) /\
    (forall i : size_t, N.of_nat (length S) <= i ->
       Caller.call (fun p => get p i) (Caller.overwrite m' src S') this = AssertionFailed) /\
    Caller.call (toString put_double) (Caller.overwrite m' src S') this =
      Returns ("PhredGenotypeLikelihoods( " +:+ comma_separated put_double S +:+ ")" +:+ endl).
Proof.
  intros Hsrc. unfold Caller.new_instance. rewrite Hsrc.
  eexists _, _. split; [reflexivity|]. split.
  { unfold Caller.overwrite. apply lookup_insert_eq. }
  assert (forall A (f : t -> outcome A),
    Caller.call f (Caller.overwrite
      (<[fresh (dom m) := Caller.an_instance (construct S)]> m) src S') (fresh (dom m)) =
    f (construct S)) as Hcall.
  { intros A f. apply call_overwrite.
    - exact (new_instance_fresh m src S Hsrc).
    - apply lookup_insert_eq. }
  rewrite !Hcall. split; [reflexivity|]. split; [reflexivity|]. split; [|split].
  - intros i x Hx. rewrite Hcall. rewrite get_in_range.
    + apply subscript_Some, Hx.
    + apply lookup_lt_Some in Hx. unfold genotype_count, size. cbn [gl construct]. lia.
  - intros i Hi. rewrite Hcall. apply get_past_end. exact Hi.
  - apply toString_rendering.
Qed.

Lemma copy_in_isolation_witness :
  ({[ 1%positive := Caller.a_vector [1.0; 2.0; 3.0]%float ]} : Caller.memory) !! 1%positive
    = Some (Caller.a_vector [1.0; 2.0; 3.0]%float) /\
  exists this m',
    Caller.new_instance {[ 1%positive := Caller.a_vector [1.0; 2.0; 3.0]%float ]} 1%positive
      = Returns (this, m') /\
    Caller.overwrite m' 1%positive [9.5]%float !! 1%positive = Some (Caller.a_vector [9.5]%float) /\
    Caller.call (fun p => Returns (as_vector p)) (Caller.overwrite m' 1%positive [9.5]%float) this =
      Returns [1.0; 2.0; 3.0]%float /\
    Caller.call (fun p => Returns (genotype_count p)) (Caller.overwrite m' 1%positive [9.5]%float) this =
      Returns (N.of_nat (length [1.0; 2.0; 3.0]%float)) /\
    (forall (i : size_t) (x : double), [1.0; 2.0; 3.0]%float !! N.to_nat i = Some x ->
       Caller.call (fun p => get p i) (Caller.overwrite m' 1%positive [9.5]%float) this = Returns x) /\
    (forall i : size_t, N.of_nat (length [1.0; 2.0; 3.0]%float) <= i ->
       Caller.call (fun p => get p i) (Caller.overwrite m' 1%positive [9.5]%float) this = AssertionFailed) /\
    Caller.call (toString StreamDouble.put_double) (Caller.overwrite m' 1%positive [9.5]%float) this =
      Returns ("PhredGenotypeLikelihoods( " +:+
               comma_separated StreamDouble.put_double [1.0; 2.0; 3.0]%float +:+ ")" +:+ endl).
Proof.
  split; [reflexivity|]. apply copy_in_isolation. reflexivity.
Defined.

(** * Further properties of the code *)

(** ** get *)

(** X1: on every instance and for every index, [get] either returns the
    element of [as_vector()] at that index or fails its assertion; it returns
    exactly for the indices below [genotype_count()], and the unchecked read
    of [gl] is never reached out of range. *)
Theorem get_guarded (this : t) (i : size_t) :
  (i < genotype_count this <-> returns (get this i)) /\
  (genotype_count this <= i <-> get this i = AssertionFailed) /\
  get this i <> Undefined /\
  (forall x, get this i = Returns x <-> as_vector this !! N.to_nat i = Some x /\ i < genotype_count this).
Proof.
  destruct (N.lt_ge_cases i (genotype_count this)) as [Hlt | Hge].
  - destruct (size_lookup (gl this) i Hlt) as [x Hx].
    assert (get this i = Returns x) as Hget
      by (rewrite get_in_range by exact Hlt; apply subscript_Some, Hx).
    rewrite Hget. split; [|split; [|split]].
    + split; [intros _; exists x; reflexivity | intros _; exact Hlt].
    + split; [intros Hle; lia | discriminate].
    + discriminate.
    + intros y. unfold as_vector. rewrite Hx. split.
      * intros [= <-]. split; [reflexivity | exact Hlt].
      * intros [[= <-] _]. reflexivity.
  - rewrite (get_past_end this i Hge). split; [|split; [|split]].
    + split; [intros Hlt; lia | intros [x Hx]; discriminate Hx].
    + split; [reflexivity | intros _; exact Hge].
    + discriminate.
    + intros y. split; [discriminate | intros [_ Hlt]; lia].
Qed.

Lemma get_guarded_witness :
  (2 < genotype_count (construct [0.5; 1.5]%float) <->
     returns (get (construct [0.5; 1.5]%float) 2)) /\
  (genotype_count (construct [0.5; 1.5]%float) <= 2 <->
     get (construct [0.5; 1.5]%float) 2 = AssertionFailed) /\
  get (construct [0.5; 1.5]%float) 2 <> Undefined /\
  (forall x, get (construct [0.5; 1.5]%float) 2 = Returns x <->
     as_vector (construct [0.5; 1.5]%float) !! N.to_nat 2 = Some x /\
     2 < genotype_count (construct [0.5; 1.5]%float)).
Proof. exact (get_guarded (construct [0.5; 1.5]%float) 2). Defined.

(** X2: two instances with the same [genotype_count()] whose [get] agrees
    at every index below it are the same instance: the two accessors
    determine the stored sequence. *)
Theorem instance_extensionality (p q : t) :
  genotype_count p = genotype_count q ->
  (forall i : size_t, i < genotype_count p -> get p i = get q i) ->
  p = q.
Proof.
  intros Hcount Hget. destruct p as [l1], q as [l2]. f_equal.
  unfold genotype_count, size in Hcount. cbn [gl] in Hcount.
  apply Nat2N.inj in Hcount.
  apply list_eq. intros n.
  destruct (decide (n < length l1)%nat) as [Hn | Hn].
  - assert (N.of_nat n < genotype_count {| gl := l1 |}) as Hi
      by (unfold genotype_count, size; cbn [gl]; lia).
    specialize (Hget _ Hi).
    rewrite !get_in_range in Hget
      by (unfold genotype_count, size in *; cbn [gl] in *; lia).
    unfold subscript in Hget. cbn [gl] in Hget. rewrite Nat2N.id in Hget.
    unfold vector in *.
    destruct (lookup_lt_is_Some_2 l1 n Hn) as [x Hx].
    destruct (lookup_lt_is_Some_2 l2 n ltac:(lia)) as [y Hy].
    rewrite Hx, Hy in Hget. rewrite Hx, Hy. congruence.
  - rewrite !lookup_ge_None_2 by lia. reflexivity.
Qed.

Lemma instance_extensionality_witness :
  genotype_count (construct [0.5; 1.5]%float) = genotype_count (construct ([0.5] ++ [1.5])%float) /\
  (forall i : size_t, i < genotype_count (construct [0.5; 1.5]%float) ->
     get (construct [0.5; 1.5]%float) i = get (construct ([0.5] ++ [1.5])%float) i) /\
  construct [0.5; 1.5]%float = construct ([0.5] ++ [1.5])%float.
Proof.
  split; [reflexivity|]. split; [intros i Hi; reflexivity|].
  apply instance_extensionality; [reflexivity | intros i Hi; reflexivity].
Defined.

(** ** toString *)

Lemma length_append (a b : string) :
  String.length (a +:+ b) = (String.length a + String.length b)%nat.
Proof.
  induction a as [|ch a IH]; [reflexivity|].
  rewrite append_String. cbn [String.length]. rewrite IH. reflexivity.
Qed.

Lemma append_cancel_r (a b c : string) : a +:+ c = b +:+ c -> a = b.
Proof.
  revert b. induction a as [|x a IH]; intros [|y b] H.
  - reflexivity.
  - apply (f_equal String.length) in H. rewrite !length_append in H.
    cbn [String.length] in H. lia.
  - apply (f_equal String.length) in H. rewrite !length_append in H.
    cbn [String.length] in H. lia.
  - rewrite !append_String in H. injection H as -> H. f_equal. apply IH, H.
Qed.

Lemma count_char_append (c : ascii) (a b : string) :
  count_char c (a +:+ b) = (count_char c a + count_char c b)%nat.
Proof.
  induction a as [|ch a IH]; [reflexivity|].
  rewrite append_String. cbn [count_char]. rewrite IH. lia.
Qed.

Lemma plain_spec (s : string) :
  plain s = true <-> s <> ""%string /\ count_char "," s = 0%nat.
Proof.
  unfold plain. rewrite andb_true_iff, negb_true_iff, Nat.eqb_eq.
  rewrite <- not_true_iff_false, String.eqb_eq. reflexivity.
Qed.

Lemma append_nil_l (a : string) : "" +:+ a = a.
Proof. reflexivity. Qed.

Ltac push_append H :=
  repeat (rewrite append_String in H || rewrite append_nil_l in H).

(** Two strings without a comma, each followed by a comma and a rest, are
    equal only part by part. *)
Lemma split_at_comma (a b r1 r2 : string) :
  count_char "," a = 0%nat -> count_char "," b = 0%nat ->
  a +:+ "," +:+ r1 = b +:+ "," +:+ r2 -> a = b /\ r1 = r2.
Proof.
  revert b. induction a as [|x a IH]; intros [|y b] Ha Hb H; push_append H.
  - injection H as ->. split; reflexivity.
  - injection H as <- _. cbn in Hb. discriminate Hb.
  - injection H as -> _. cbn in Ha. discriminate Ha.
  - injection H as -> H. cbn [count_char] in Ha, Hb.
    destruct (IH b ltac:(lia) ltac:(lia)) as [-> ->]; [|split; reflexivity].
    push_append H. rewrite !append_String, !append_nil_l. exact H.
Qed.

Section joining.
Implicit Types (l : list string) (s : string).

Lemma concat_two s1 s2 l :
  String.concat "," (s1 :: s2 :: l) = s1 +:+ "," +:+ String.concat "," (s2 :: l).
Proof. reflexivity. Qed.

Lemma concat_app l1 l2 :
  l1 <> [] -> l2 <> [] ->
  String.concat "," (l1 ++ l2) =
  String.concat "," l1 +:+ "," +:+ String.concat "," l2.
Proof.
  intros H1 H2. induction l1 as [|s1 [|s2 l1] IH]; [congruence| |].
  - destruct l2 as [|s2 l2]; [congruence|]. reflexivity.
  - change ((s1 :: s2 :: l1) ++ l2) with (s1 :: s2 :: (l1 ++ l2)).
    rewrite !concat_two. change (s2 :: l1 ++ l2) with ((s2 :: l1) ++ l2).
    rewrite IH by discriminate. rewrite !append_assoc. reflexivity.
Qed.

Lemma count_comma_concat l :
  forallb plain l = true ->
  count_char "," (String.concat "," l) = Nat.pred (length l).
Proof.
  induction l as [|s1 [|s2 l] IH]; intros Hl; [reflexivity| |].
  - cbn in Hl. rewrite andb_true_r in Hl. apply plain_spec in Hl as [_ Hl].
    exact Hl.
  - change (forallb plain (s1 :: s2 :: l)) with (plain s1 && forallb plain (s2 :: l)) in Hl.
    apply andb_true_iff in Hl as [[_ H1]%plain_spec Hl].
    rewrite concat_two, !count_char_append, H1, (IH Hl). reflexivity.
Qed.

Lemma concat_plain_inj l1 : forall l2,
  forallb plain l1 = true -> forallb plain l2 = true ->
  String.concat "," l1 = String.concat "," l2 -> l1 = l2.
Proof.
  induction l1 as [|s1 [|s1' l1] IH]; intros [|s2 [|s2' l2]] H1 H2 H;
    try reflexivity;
    repeat match goal with
    | Hp : forallb plain (?s :: ?s' :: ?l) = true |- _ =>
        change (plain s && forallb plain (s' :: l) = true) in Hp;
        apply andb_true_iff in Hp; destruct Hp as [[? ?]%plain_spec ?]
    | Hp : forallb plain [?s] = true |- _ =>
        change (plain s && true = true) in Hp;
        apply andb_true_iff in Hp as [[? ?]%plain_spec _]
    end;
    rewrite ?concat_two in H;
    change (String.concat "," []) with ""%string in H;
    repeat match type of H with
    | context [String.concat "," [?s]] => change (String.concat "," [s]) with s in H
    end.
  - congruence.
  - apply (f_equal String.length) in H. rewrite !length_append in H.
    cbn [String.length] in H. lia.
  - congruence.
  - subst. reflexivity.
  - apply (f_equal (count_char ",")) in H.
    rewrite !count_char_append in H. cbn [count_char Ascii.eqb Bool.eqb] in H. lia.
  - apply (f_equal String.length) in H. rewrite !length_append in H.
    cbn [String.length] in H. lia.
  - apply (f_equal (count_char ",")) in H.
    rewrite !count_char_append in H. cbn [count_char Ascii.eqb Bool.eqb] in H. lia.
  - apply split_at_comma in H as [-> H]; [|assumption..].
    f_equal. apply IH; assumption.
Qed.

End joining.

Section rendering.
Variable put_double : double -> string.

Lemma forallb_map_plain (l : list double) :
  forallb plain (map put_double l) = forallb (fun x => plain (put_double x)) l.
Proof. induction l as [|x l IH]; [reflexivity|]. cbn [map forallb]. rewrite IH. reflexivity. Qed.

Lemma drop_all_nil {A} (l : list A) (n : nat) : (length l <= n)%nat -> drop n l = [].
Proof. intros H. apply drop_ge, H. Qed.

(** X3: the loop of [toString] is safe from every counter value: entered
    with counter [i] it returns, having written exactly the elements from
    index [i] on (each but the one at index 0 after a comma); at or past the
    end it writes nothing and reads nothing. *)
Theorem toString_loop_from (this : t) (i : size_t) (oss : ostringstream) :
  toString_loop put_double this i oss =
    Returns (oss +:+ items put_double i (drop (N.to_nat i) (gl this))) /\
  (size (gl this) <= i -> toString_loop put_double this i oss = Returns oss).
Proof.
  destruct (N.lt_ge_cases i (size (gl this))) as [Hlt | Hge].
  - split; [|intros Hge; lia].
    assert (size (take (N.to_nat i) (gl this)) = i) as Hsize.
    { unfold size in *. rewrite length_take. lia. }
    pose proof (toString_loop_items put_double this (drop (N.to_nat i) (gl this))
                  (take (N.to_nat i) (gl this)) oss
                  (eq_sym (take_drop (N.to_nat i) (gl this)))) as Hloop.
    rewrite Hsize in Hloop. exact Hloop.
  - assert (toString_loop put_double this i oss = Returns oss) as Hret.
    { rewrite toString_loop_unfold. apply N.ltb_ge in Hge. rewrite Hge. reflexivity. }
    split; [|intros _; exact Hret].
    rewrite Hret, drop_all_nil by (unfold size in Hge; lia).
    cbn [items]. rewrite append_empty_r. reflexivity.
Qed.

(** X4: the rendering of a sequence put together from two non-empty parts is
    the renderings of the parts' elements with one comma between them, inside
    the same prefix and suffix. *)
Theorem toString_app (S1 S2 : vector double) :
  S1 <> [] -> S2 <> [] ->
  toString put_double (construct (S1 ++ S2)) =
  Returns ("PhredGenotypeLikelihoods( " +:+ comma_separated put_double S1 +:+ "," +:+
           comma_separated put_double S2 +:+ ")" +:+ endl).
Proof.
  intros H1 H2. rewrite toString_rendering. cbn [gl construct].
  unfold comma_separated. rewrite map_app, concat_app.
  - rewrite !append_assoc. reflexivity.
  - destruct S1; [congruence | discriminate].
  - destruct S2; [congruence | discriminate].
Qed.

(** X5: when no element's representation contains a comma (and none is
    empty), the string that [toString] returns has one comma less than the
    instance has elements, and none for the empty instance: separators stand
    between neighbours only, never first or last. *)
Theorem toString_comma_count (this : t) :
  forallb (fun x => plain (put_double x)) (as_vector this) = true ->
  exists s, toString put_double this = Returns s /\
            count_char "," s = Nat.pred (length (as_vector this)).
Proof.
  intros Hplain. eexists. split; [apply toString_rendering|].
  rewrite !count_char_append. unfold comma_separated.
  rewrite count_comma_concat.
  - rewrite length_map. unfold as_vector.
    change (count_char "," "PhredGenotypeLikelihoods( ") with 0%nat.
    change (count_char "," ")") with 0%nat.
    change (count_char "," endl) with 0%nat. lia.
  - rewrite forallb_map_plain. exact Hplain.
Qed.

(** X6: when all element representations of two instances are non-empty and
    free of commas, [toString] returns the same string for both exactly when
    they hold the same representations in the same order; in particular they
    then hold the same number of elements. *)
Theorem toString_unambiguous (p q : t) :
  forallb (fun x => plain (put_double x)) (as_vector p) = true ->
  forallb (fun x => plain (put_double x)) (as_vector q) = true ->
  (toString put_double p = toString put_double q <->
   map put_double (as_vector p) = map put_double (as_vector q)) /\
  (toString put_double p = toString put_double q ->
   genotype_count p = genotype_count q).
Proof.
  intros Hp Hq.
  assert (toString put_double p = toString put_double q ->
          map put_double (as_vector p) = map put_double (as_vector q)) as Hinj.
  { intros H. rewrite !toString_rendering in H. injection H as H.
    apply (inj (String.app _)) in H.
    rewrite <- !append_assoc in H. do 2 apply append_cancel_r in H.
    unfold comma_separated in H.
    apply concat_plain_inj in H; [exact H|rewrite forallb_map_plain; assumption..]. }
  split; [split; [exact Hinj|]|].
  - intros H. rewrite !toString_rendering. unfold comma_separated, as_vector in *.
    rewrite H. reflexivity.
  - intros H%Hinj. unfold genotype_count, size. f_equal.
    apply (f_equal length) in H. rewrite !length_map in H. exact H.
Qed.

End rendering.

Lemma toString_loop_from_witness :
  (toString_loop StreamDouble.put_double (construct [0.5; 1.5]%float) 2 "x" =
     Returns ("x" +:+ items StreamDouble.put_double 2
                        (drop (N.to_nat 2) (gl (construct [0.5; 1.5]%float))))) /\
  (size (gl (construct [0.5; 1.5]%float)) <= 2 /\
   toString_loop StreamDouble.put_double (construct [0.5; 1.5]%float) 2 "x" = Returns "x"%string).
Proof.
  destruct (toString_loop_from StreamDouble.put_double (construct [0.5; 1.5]%float) 2 "x")
    as [Hall Hend].
  split; [exact Hall|]. split; [unfold size; simpl; lia | apply Hend; unfold size; simpl; lia].
Defined.

Lemma toString_app_witness :
  [0.5]%float <> [] /\ [1.5; 2.5]%float <> [] /\
  toString StreamDouble.put_double (construct ([0.5] ++ [1.5; 2.5])%float) =
  Returns ("PhredGenotypeLikelihoods( " +:+ comma_separated StreamDouble.put_double [0.5]%float +:+ "," +:+
           comma_separated StreamDouble.put_double [1.5; 2.5]%float +:+ ")" +:+ endl).
Proof.
  split; [discriminate|]. split; [discriminate|].
  apply toString_app; discriminate.
Defined.

Lemma toString_comma_count_witness :
  forallb (fun x => plain (StreamDouble.put_double x))
          (as_vector (construct [0.1; 0.2; 0.3]%float)) = true /\
  exists s, toString StreamDouble.put_double (construct [0.1; 0.2; 0.3]%float) = Returns s /\
            count_char "," s = Nat.pred (length (as_vector (construct [0.1; 0.2; 0.3]%float))).
Proof.
  split; [vm_compute; reflexivity|].
  apply toString_comma_count. vm_compute. reflexivity.
Defined.

Lemma toString_unambiguous_witness :
  forallb (fun x => plain (StreamDouble.put_double x))
          (as_vector (construct [0.1; 0.2]%float)) = true /\
  forallb (fun x => plain (StreamDouble.put_double x))
          (as_vector (construct [0.10000001; 0.2]%float)) = true /\
  (toString StreamDouble.put_double (construct [0.1; 0.2]%float) =
     toString StreamDouble.put_double (construct [0.10000001; 0.2]%float) <->
   map StreamDouble.put_double (as_vector (construct [0.1; 0.2]%float)) =
     map StreamDouble.put_double (as_vector (construct [0.10000001; 0.2]%float))) /\
  (toString StreamDouble.put_double (construct [0.1; 0.2]%float) =
     toString StreamDouble.put_double (construct [0.10000001; 0.2]%float) ->
   genotype_count (construct [0.1; 0.2]%float) =
     genotype_count (construct [0.10000001; 0.2]%float)).
Proof.
  split; [vm_compute; reflexivity|]. split; [vm_compute; reflexivity|].
  apply toString_unambiguous; vm_compute; reflexivity.
Defined.

(** ** The constructor and the caller's objects *)

Lemma new_instance_result (m : Caller.memory) (src : positive) (S : vector double) :
  m !! src = Some (Caller.a_vector S) ->
  exists this m',
    Caller.new_instance m src = Returns (this, m') /\
    m !! this = None /\
    m' !! this = Some (Caller.an_instance (construct S)) /\
    m' !! src = Some (Caller.a_vector S) /\
    forall a : positive, a <> this -> m' !! a = m !! a.
Proof.
  intros Hsrc. unfold Caller.new_instance. rewrite Hsrc.
  pose proof (new_instance_fresh m src S Hsrc) as Hne.
  eexists _, _. split; [reflexivity|]. repeat split.
  - apply not_elem_of_dom. apply is_fresh.
  - apply lookup_insert_eq.
  - rewrite lookup_insert_ne by exact Hne. exact Hsrc.
  - intros a Ha. apply lookup_insert_ne. congruence.
Qed.

(** X8: instances are snapshots.  An instance constructed from the caller's
    vector while it held [S], and a second one constructed from the same
    vector after the caller changed it to [S'], are two objects; with both
    alive the first gives [S] (as_vector, get, toString) and the second
    gives [S']. *)
Theorem instances_are_snapshots (put_double : double -> string) (m : Caller.memory)
    (src : positive) (S S' : vector double) :
  m !! src = Some (Caller.a_vector S) ->
  exists this1 m1 this2 m2,
    Caller.new_instance m src = Returns (this1, m1) /\
    Caller.new_instance (Caller.overwrite m1 src S') src = Returns (this2, m2) /\
    this1 <> this2 /\
    Caller.call (fun p => Returns (as_vector p)) m2 this1 = Returns S /\
    Caller.call (fun p => Returns (as_vector p)) m2 this2 = Returns S' /\
    (forall (i : size_t) (x : double), S !! N.to_nat i = Some x ->
       Caller.call (fun p => get p i) m2 this1 = Returns x) /\
    (forall (i : size_t) (x : double), S' !! N.to_nat i = Some x ->
       Caller.call (fun p => get p i) m2 this2 = Returns x) /\
    Caller.call (toString put_double) m2 this1 =
      Returns ("PhredGenotypeLikelihoods( " +:+ comma_separated put_double S +:+ ")" +:+ endl) /\
    Caller.call (toString put_double) m2 this2 =
      Returns ("PhredGenotypeLikelihoods( " +:+ comma_separated put_double S' +:+ ")" +:+ endl).
Proof.
  intros Hsrc.
  destruct (new_instance_result m src S Hsrc) as (this1 & m1 & Hnew1 & Hfree1 & Hthis1 & _ & _).
  assert (this1 <> src) as Hne1 by congruence.
  assert (Caller.overwrite m1 src S' !! src = Some (Caller.a_vector S')) as Hsrc'
    by apply lookup_insert_eq.
  destruct (new_instance_result _ src S' Hsrc') as (this2 & m2 & Hnew2 & Hfree2 & Hthis2 & _ & Hframe).
  exists this1, m1, this2, m2. split; [exact Hnew1|]. split; [exact Hnew2|].
  assert (this1 <> this2) as Hne.
  { intros ->. unfold Caller.overwrite in Hfree2.
    rewrite lookup_insert_ne in Hfree2 by congruence. congruence. }
  split; [exact Hne|].
  assert (forall A (f : t -> outcome A), Caller.call f m2 this1 = f (construct S)) as Hcall1.
  { intros A f. unfold Caller.call. rewrite (Hframe this1 Hne). unfold Caller.overwrite.
    rewrite lookup_insert_ne by congruence. rewrite Hthis1. reflexivity. }
  assert (forall A (f : t -> outcome A), Caller.call f m2 this2 = f (construct S')) as Hcall2.
  { intros A f. unfold Caller.call. rewrite Hthis2. reflexivity. }
  rewrite !Hcall1, !Hcall2. split; [reflexivity|]. split; [reflexivity|].
  assert (forall (V : vector double) (i : size_t) (x : double),
            V !! N.to_nat i = Some x -> get (construct V) i = Returns x) as Hget.
  { intros V i x Hx. rewrite get_in_range; [apply subscript_Some, Hx|].
    apply lookup_lt_Some in Hx. unfold genotype_count, size. cbn [gl construct]. lia. }
  split; [intros i x Hx; rewrite Hcall1; apply Hget, Hx|].
  split; [intros i x Hx; rewrite Hcall2; apply Hget, Hx|].
  split; apply toString_rendering.
Qed.

Lemma instances_are_snapshots_witness :
  ({[ 1%positive := Caller.a_vector [1.0; 2.0]%float ]} : Caller.memory) !! 1%positive
    = Some (Caller.a_vector [1.0; 2.0]%float) /\
  exists this1 m1 this2 m2,
    Caller.new_instance {[ 1%positive := Caller.a_vector [1.0; 2.0]%float ]} 1%positive
      = Returns (this1, m1) /\
    Caller.new_instance (Caller.overwrite m1 1%positive [9.5]%float) 1%positive = Returns (this2, m2) /\
    this1 <> this2 /\
    Caller.call (fun p => Returns (as_vector p)) m2 this1 = Returns [1.0; 2.0]%float /\
    Caller.call (fun p => Returns (as_vector p)) m2 this2 = Returns [9.5]%float /\
    (forall (i : size_t) (x : double), [1.0; 2.0]%float !! N.to_nat i = Some x ->
       Caller.call (fun p => get p i) m2 this1 = Returns x) /\
    (forall (i : size_t) (x : double), [9.5]%float !! N.to_nat i = Some x ->
       Caller.call (fun p => get p i) m2 this2 = Returns x) /\
    Caller.call (toString StreamDouble.put_double) m2 this1 =
      Returns ("PhredGenotypeLikelihoods( " +:+
               comma_separated StreamDouble.put_double [1.0; 2.0]%float +:+ ")" +:+ endl) /\
    Caller.call (toString StreamDouble.put_double) m2 this2 =
      Returns ("PhredGenotypeLikelihoods( " +:+
               comma_separated StreamDouble.put_double [9.5]%float +:+ ")" +:+ endl).
Proof.
  split; [reflexivity|]. apply instances_are_snapshots. reflexivity.
Defined.
